(** * QuickChat client: the [ChatApp] component as a labelled transition system

    Shallow embedding of [src/ChatApp.tsx].  The component's React state, its
    two refs and the pending browser timeouts form the [State]; every
    [socket.on] callback, every user-interface handler and the passage of time
    is a transition that returns the new state together with the events that
    were emitted on the socket while it ran. *)

From Stdlib Require Import ZArith NArith List Bool String Ascii Lia.
From Stdlib Require Import DecimalString.
Import ListNotations.
Local Open Scope Z_scope.

(** ** JavaScript strings *)

(** A JavaScript string is a sequence of UTF-16 code units; [length] counts
    code units, which is also what the [maxLength] attribute counts. *)
Definition code_unit := N.
Definition JSString := list code_unit.

(** String literals of the source (all of them ASCII). *)
Definition js (s : string) : JSString :=
  map N_of_ascii (list_ascii_of_string s).

(** [WhiteSpace] and [LineTerminator] code points of ECMAScript, the ones
    [String.prototype.trim] strips. *)
Definition isWhiteSpace (c : code_unit) : bool :=
  match c with
  | 9%N | 10%N | 11%N | 12%N | 13%N | 32%N | 160%N
  | 5760%N | 8232%N | 8233%N | 8239%N | 8287%N | 12288%N | 65279%N => true
  | _ => ((8192 <=? c) && (c <=? 8202))%N
  end.

Fixpoint trimStart (s : JSString) : JSString :=
  match s with
  | [] => []
  | c :: s' => if isWhiteSpace c then trimStart s' else s
  end.

Definition trimEnd (s : JSString) : JSString := rev (trimStart (rev s)).

Definition trim (s : JSString) : JSString := trimEnd (trimStart s).

(** Truthiness of a string: the empty string is the only falsy one. *)
Definition truthy (s : JSString) : bool :=
  match s with [] => false | _ :: _ => true end.

(** [Number.prototype.toString] on an integral number in the range of
    [Date.now()]: plain decimal digits, with a sign when negative. *)
Definition toString (n : Z) : JSString :=
  js (NilZero.string_of_int (Z.to_int n)).

(** ** Types of the component *)

Inductive Sender := user | partner.

Record Message := {
  id : JSString;
  text : JSString;
  sender : Sender;
  timestamp : Z
}.

Inductive Status := disconnected | connecting | waiting | connected.

Record ConnectionState := {
  status : Status;
  partnerId : option JSString
}.

Definition Status_eqb (a b : Status) : bool :=
  match a, b with
  | disconnected, disconnected | connecting, connecting
  | waiting, waiting | connected, connected => true
  | _, _ => false
  end.

(** Events the client emits on the socket ([socketRef.current.emit]). *)
Inductive ClientEvent :=
| find_partner
| send_message (text : JSString)
| typing_start
| typing_stop
| next_partner
| disconnect_chat.

(** Events the client listens to ([socket.on]), with their payloads. *)
Inductive ServerEvent :=
| connect
| disconnect
| online_count (count : Z)
| waiting_for_partner
| partner_found (partnerId message : JSString)
| partner_disconnected (message : JSString)
| message_received (message : Message)
| partner_typing_start
| partner_typing_stop
| error (message : JSString).

(** The socket object is opaque to the component: it only tests
    [socketRef.current] against [null] and calls [emit] on it.  Emitted events
    are the output of a transition. *)
Inductive Socket := io_socket.

(** Timeout handles are positive integers, hence always truthy.  The only
    callback ever passed to [setTimeout]:
    [() => { if (socketRef.current) socketRef.current.emit('typing_stop') }]. *)
Inductive TimerCallback := emit_typing_stop.

Record Timer := {
  timer_id : positive;
  due : Z;
  callback : TimerCallback
}.

Record State := {
  (* useState *)
  messages : list Message;
  currentMessage : JSString;
  connection : ConnectionState;
  onlineUsers : Z;
  isTyping : bool;
  (* useRef *)
  socketRef : option Socket;
  typingTimeoutRef : option positive;
  (* the browser's timer queue: pending timeouts, next handle, clock in ms *)
  timers : list Timer;
  next_timer : positive;
  clock : Z
}.

(** State on the first render, before the mount effect has run. *)
Definition initial : State := {|
  messages := [];
  currentMessage := [];
  connection := {| status := disconnected; partnerId := None |};
  onlineUsers := 0;
  isTyping := false;
  socketRef := None;
  typingTimeoutRef := None;
  timers := [];
  next_timer := 1%positive;
  clock := 0
|}.

(** ** Actions: state updates with emitted events *)

Definition Action := State -> State * list ClientEvent.

Definition skip : Action := fun st => (st, []).

Definition seq (a b : Action) : Action :=
  fun st => let (st1, o1) := a st in
            let (st2, o2) := b st1 in (st2, o1 ++ o2).

Declare Scope action_scope.
Delimit Scope action_scope with action.
Bind Scope action_scope with Action.
Notation "a ;; b" := (seq a b) (at level 61, right associativity) : action_scope.

Definition setMessages (f : list Message -> list Message) : Action :=
  fun st => ({| messages := f (messages st);
                currentMessage := currentMessage st;
                connection := connection st;
                onlineUsers := onlineUsers st;
                isTyping := isTyping st;
                socketRef := socketRef st;
                typingTimeoutRef := typingTimeoutRef st;
                timers := timers st;
                next_timer := next_timer st;
                clock := clock st |}, []).

Definition setCurrentMessage (v : JSString) : Action :=
  fun st => ({| messages := messages st;
                currentMessage := v;
                connection := connection st;
                onlineUsers := onlineUsers st;
                isTyping := isTyping st;
                socketRef := socketRef st;
                typingTimeoutRef := typingTimeoutRef st;
                timers := timers st;
                next_timer := next_timer st;
                clock := clock st |}, []).

Definition setConnection (c : ConnectionState) : Action :=
  fun st => ({| messages := messages st;
                currentMessage := currentMessage st;
                connection := c;
                onlineUsers := onlineUsers st;
                isTyping := isTyping st;
                socketRef := socketRef st;
                typingTimeoutRef := typingTimeoutRef st;
                timers := timers st;
                next_timer := next_timer st;
                clock := clock st |}, []).

Definition setOnlineUsers (n : Z) : Action :=
  fun st => ({| messages := messages st;
                currentMessage := currentMessage st;
                connection := connection st;
                onlineUsers := n;
                isTyping := isTyping st;
                socketRef := socketRef st;
                typingTimeoutRef := typingTimeoutRef st;
                timers := timers st;
                next_timer := next_timer st;
                clock := clock st |}, []).

Definition setIsTyping (b : bool) : Action :=
  fun st => ({| messages := messages st;
                currentMessage := currentMessage st;
                connection := connection st;
                onlineUsers := onlineUsers st;
                isTyping := b;
                socketRef := socketRef st;
                typingTimeoutRef := typingTimeoutRef st;
                timers := timers st;
                next_timer := next_timer st;
                clock := clock st |}, []).

(** [socketRef.current = io(serverUrl, ...)] *)
Definition setSocketRef (r : option Socket) : Action :=
  fun st => ({| messages := messages st;
                currentMessage := currentMessage st;
                connection := connection st;
                onlineUsers := onlineUsers st;
                isTyping := isTyping st;
                socketRef := r;
                typingTimeoutRef := typingTimeoutRef st;
                timers := timers st;
                next_timer := next_timer st;
                clock := clock st |}, []).

(** [socketRef.current.emit(e)]; every call site is guarded by a test that
    [socketRef.current] is not null. *)
Definition emit (e : ClientEvent) : Action :=
  fun st => match socketRef st with
            | Some _ => (st, [e])
            | None => (st, [])
            end.

(** [clearTimeout(h)]: drops the pending timeout with handle [h], if any. *)
Definition clearTimeout (h : positive) : Action :=
  fun st => ({| messages := messages st;
                currentMessage := currentMessage st;
                connection := connection st;
                onlineUsers := onlineUsers st;
                isTyping := isTyping st;
                socketRef := socketRef st;
                typingTimeoutRef := typingTimeoutRef st;
                timers := filter (fun t => negb (Pos.eqb (timer_id t) h)) (timers st);
                next_timer := next_timer st;
                clock := clock st |}, []).

(** [typingTimeoutRef.current = setTimeout(cb, delay)]: queues the callback
    under a fresh handle and stores the handle in the ref. *)
Definition setTypingTimeout (cb : TimerCallback) (delay : Z) : Action :=
  fun st => ({| messages := messages st;
                currentMessage := currentMessage st;
                connection := connection st;
                onlineUsers := onlineUsers st;
                isTyping := isTyping st;
                socketRef := socketRef st;
                typingTimeoutRef := Some (next_timer st);
                timers := timers st ++ [{| timer_id := next_timer st;
                                           due := clock st + delay;
                                           callback := cb |}];
                next_timer := Pos.succ (next_timer st);
                clock := clock st |}, []).

(** ** The component's event handlers

    A handler is a closure over the state of the render that created it: its
    reads of [connection] and [currentMessage] see that state ([s] below),
    while its [set...] calls and emissions are applied in sequence.  The two
    integers [t1] and [t2] are the successive readings of [Date.now()]. *)

Local Open Scope action_scope.

Definition isSome {A : Type} (o : option A) : bool :=
  match o with Some _ => true | None => false end.

Definition is_connected (s : State) : bool :=
  Status_eqb (status (connection s)) connected.

Definition systemMessage (text : JSString) (t1 t2 : Z) : Message :=
  {| id := js "system_" ++ toString t1;
     text := text;
     sender := user;
     timestamp := t2 |}.

(** The [socket.on(...)] callbacks registered by the mount effect. *)
Definition on (ev : ServerEvent) (t1 t2 : Z) : Action :=
  match ev with
  | connect =>
      setConnection {| status := disconnected; partnerId := None |}
  | disconnect =>
      setConnection {| status := disconnected; partnerId := None |} ;;
      setMessages (fun _ => []) ;;
      setIsTyping false
  | online_count count =>
      setOnlineUsers count
  | waiting_for_partner =>
      setConnection {| status := waiting; partnerId := None |} ;;
      setMessages (fun _ =>
        [systemMessage (js "Looking for someone to chat with...") t1 t2])
  | partner_found pid msg =>
      setConnection {| status := connected; partnerId := Some pid |} ;;
      setMessages (fun _ =>
        [{| id := js "system_1"; text := msg; sender := user; timestamp := t1 |}])
  | partner_disconnected msg =>
      setConnection {| status := waiting; partnerId := None |} ;;
      setMessages (fun prev => prev ++ [systemMessage msg t1 t2]) ;;
      setIsTyping false
  | message_received message =>
      setMessages (fun prev => prev ++ [message]) ;;
      setIsTyping false
  | partner_typing_start => setIsTyping true
  | partner_typing_stop => setIsTyping false
  | error _ => skip
  end.

(** The mount effect: [socketRef.current = io(serverUrl, ...)].  Its cleanup
    runs when the component goes away and is not part of the model. *)
Definition mount : Action := setSocketRef (Some io_socket).

Definition handleConnect : Action := fun s =>
  if isSome (socketRef s) && Status_eqb (status (connection s)) disconnected
  then (setConnection {| status := connecting; partnerId := None |} ;;
        emit find_partner) s
  else skip s.

Definition handleSendMessage (t1 t2 : Z) : Action := fun s =>
  if negb (truthy (trim (currentMessage s)))
     || negb (is_connected s)
     || negb (isSome (socketRef s))
  then skip s
  else
    let newMessage := {| id := toString t1;
                         text := currentMessage s;
                         sender := user;
                         timestamp := t2 |} in
    (setMessages (fun prev => prev ++ [newMessage]) ;;
     emit (send_message (currentMessage s)) ;;
     setCurrentMessage [] ;;
     emit typing_stop) s.

Definition handleNext (t1 t2 : Z) : Action := fun s =>
  if is_connected s && isSome (socketRef s)
  then (emit next_partner ;;
        setConnection {| status := waiting; partnerId := None |} ;;
        setMessages (fun prev =>
          prev ++ [systemMessage (js "Looking for a new partner...") t1 t2]) ;;
        setIsTyping false) s
  else skip s.

Definition handleDisconnect : Action := fun s =>
  if isSome (socketRef s)
  then (emit disconnect_chat ;;
        setConnection {| status := disconnected; partnerId := None |} ;;
        setMessages (fun _ => []) ;;
        setIsTyping false) s
  else skip s.

(** The timeout callback. *)
Definition run_callback (cb : TimerCallback) : Action :=
  match cb with
  | emit_typing_stop => fun st =>
      if isSome (socketRef st) then emit typing_stop st else skip st
  end.

(** [typingTimeoutRef.current] is a ref: it is read when the statement runs. *)
Definition clearTypingTimeout : Action := fun st =>
  match typingTimeoutRef st with
  | Some h => clearTimeout h st
  | None => skip st
  end.

Definition handleInputChange (value : JSString) : Action := fun s =>
  (setCurrentMessage value ;;
   if is_connected s && isSome (socketRef s)
   then emit typing_start ;;
        clearTypingTimeout ;;
        setTypingTimeout emit_typing_stop 1000
   else skip) s.

(** The input's [onKeyDown]. *)
Definition JSString_eqb (a b : JSString) : bool :=
  if list_eq_dec N.eq_dec a b then true else false.

Definition onKeyDown (key : JSString) (t1 t2 : Z) : Action := fun s =>
  if JSString_eqb key (js "Enter")
     && truthy (trim (currentMessage s))
     && is_connected s
  then handleSendMessage t1 t2 s
  else skip s.

(** ** Time

    [elapse d] lets [d] milliseconds pass: every pending timeout whose due
    time has been reached runs, in the order in which they were queued (all
    delays are equal, so this is also the order of their due times). *)

Fixpoint run_all (l : list Action) : Action :=
  match l with
  | [] => skip
  | a :: l' => a ;; run_all l'
  end.

Definition advance (d : Z) : Action :=
  fun st => ({| messages := messages st;
                currentMessage := currentMessage st;
                connection := connection st;
                onlineUsers := onlineUsers st;
                isTyping := isTyping st;
                socketRef := socketRef st;
                typingTimeoutRef := typingTimeoutRef st;
                timers := filter (fun t => clock st + d <? due t) (timers st);
                next_timer := next_timer st;
                clock := clock st + d |}, []).

Definition elapse (d : Z) : Action := fun st =>
  let ready := filter (fun t => due t <=? clock st + d) (timers st) in
  (advance d ;; run_all (map (fun t => run_callback (callback t)) ready)) st.

(** ** The transition system *)

Inductive Event :=
| Mount
| Recv (ev : ServerEvent) (t1 t2 : Z)
| ClickStartChatting
| ClickSend (t1 t2 : Z)
| ClickNext (t1 t2 : Z)
| ClickDisconnect
| KeyDown (key : JSString) (t1 t2 : Z)
| Change (value : JSString)
| Elapse (d : Z).

Definition handle (e : Event) : Action :=
  match e with
  | Mount => mount
  | Recv ev t1 t2 => on ev t1 t2
  | ClickStartChatting => handleConnect
  | ClickSend t1 t2 => handleSendMessage t1 t2
  | ClickNext t1 t2 => handleNext t1 t2
  | ClickDisconnect => handleDisconnect
  | KeyDown key t1 t2 => onKeyDown key t1 t2
  | Change value => handleInputChange value
  | Elapse d => elapse d
  end.

(** What the rendered page lets happen in state [s]:
    - the mount effect runs once, and the socket callbacks exist after it;
    - "Start Chatting" is rendered only when disconnected;
    - "Next" and "Disconnect" are rendered only when connected;
    - the send button is [disabled] when the trimmed text is empty or the
      status is not connected;
    - the text input is [disabled] unless connected and has [maxLength={500}],
      so the browser never hands over a value longer than 500 code units. *)
Definition maxLength : nat := 500.

Definition enabled (e : Event) (s : State) : bool :=
  match e with
  | Mount => negb (isSome (socketRef s))
  | Recv _ _ _ => isSome (socketRef s)
  | ClickStartChatting => Status_eqb (status (connection s)) disconnected
  | ClickSend _ _ => truthy (trim (currentMessage s)) && is_connected s
  | ClickNext _ _ | ClickDisconnect => is_connected s
  | KeyDown _ _ _ => is_connected s
  | Change value => is_connected s && (List.length value <=? maxLength)%nat
  | Elapse d => 0 <=? d
  end.

Definition step (s : State) (e : Event) (s' : State) : Prop :=
  enabled e s = true /\ s' = fst (handle e s).

(** Output of a transition. *)
Definition emitted (e : Event) (s : State) : list ClientEvent :=
  snd (handle e s).

Inductive reachable : State -> Prop :=
| reachable_initial : reachable initial
| reachable_step s e s' : reachable s -> step s e s' -> reachable s'.

(** Running a whole trace of events. *)
Fixpoint run (tr : list Event) : Action :=
  match tr with
  | [] => skip
  | e :: tr' => handle e ;; run tr'
  end.

Fixpoint allowed (tr : list Event) (s : State) : bool :=
  match tr with
  | [] => true
  | e :: tr' => enabled e s && allowed tr' (fst (handle e s))
  end.

(** ** Traces *)

(** Milliseconds that pass along a trace. *)
Fixpoint elapsed (tr : list Event) : Z :=
  match tr with
  | [] => 0
  | Elapse d :: tr' => d + elapsed tr'
  | _ :: tr' => elapsed tr'
  end.

Definition is_change (e : Event) : bool :=
  match e with Change _ => true | _ => false end.

Definition is_elapse (e : Event) : bool :=
  match e with Elapse _ => true | _ => false end.

(** ** Invariants of the reachable states *)

(** [socket.on] callbacks only exist after the mount effect, so every status
    other than the initial one implies that the socket exists. *)
Definition socket_inv (s : State) : Prop :=
  socketRef s = None -> status (connection s) = disconnected.

(** The connection state records a partner only when connected. *)
Definition partner_inv (s : State) : Prop :=
  forall p, partnerId (connection s) = Some p -> status (connection s) = connected.

(** The text held in [currentMessage] fits the input's [maxLength]. *)
Definition length_inv (s : State) : Prop :=
  (List.length (currentMessage s) <= maxLength)%nat.

(** The part of the state that belongs to the timeout machinery. *)
Definition timer_view (s : State) :=
  (typingTimeoutRef s, timers s, next_timer s, clock s).

(** At most one timeout is pending; it is the one [typingTimeoutRef] points
    to, it is due within the next second, and handles are fresh. *)
Definition timer_inv (s : State) : Prop :=
  (forall h, typingTimeoutRef s = Some h -> (h < next_timer s)%positive) /\
  (timers s = [] \/
   exists t, timers s = [t] /\ typingTimeoutRef s = Some (timer_id t) /\
             clock s < due t <= clock s + 1000).

(** The invariants of the reachable states, together. *)
Record invariant (s : State) : Prop := {
  inv_socket : socket_inv s;
  inv_partner : partner_inv s;
  inv_length : length_inv s;
  inv_timer : timer_inv s
}.

(** ** Events that belong to a pairing *)

(** The three events that only make sense inside a pairing. *)
Definition pairing_event (ev : ClientEvent) : bool :=
  match ev with
  | send_message _ | typing_start | next_partner => true
  | _ => false
  end.

(** ** The relay, as the client sees it *)

(** Identifier of a connection on the server. *)
Definition ConnId := JSString.

(** Modelled from the spec: the relay of chat messages (Session Event Router,
    section 4.5) runs on the server, whose code is not part of this client
    repository.  A chat message whose sender is paired and whose text is
    non-empty after trimming and at most 500 units long is forwarded
    verbatim to the partner's send-handle, tagged as received from the
    partner, with an id and a timestamp assigned by the server; otherwise it
    is dropped.  The result lists the deliveries as (recipient, event). *)
Definition relay_chat_message (partner_of_sender : option ConnId)
    (txt fresh_id : JSString) (server_time : Z) : list (ConnId * ServerEvent) :=
  match partner_of_sender with
  | Some p =>
      if truthy (trim txt) && (List.length txt <=? 500)%nat
      then [(p, message_received {| id := fresh_id; text := txt;
                                    sender := partner;
                                    timestamp := server_time |})]
      else []
  | None => []
  end.

(** ** A concrete session

    The page is mounted, the socket connects, the user clicks "Start
    Chatting", the server answers [waiting_for_partner] and then
    [partner_found]. *)

Definition greeting : JSString := js "You are now connected to a stranger!".

Definition session : list Event :=
  [ Mount;
    Recv connect 0 0;
    ClickStartChatting;
    Recv waiting_for_partner 10 10;
    Recv (partner_found (js "p7") greeting) 20 20 ].

Definition paired : State := fst (run session initial).

(** The same session after the user typed "hi". *)
Definition typed : State := fst (handleInputChange (js "hi") paired).

(** The user typed two blanks. *)
Definition blank : State := fst (handleInputChange (js "  ") paired).

(** ** Rendering

    The parts of the returned JSX that depend on the state. *)

Definition getStatusColor (s : State) : JSString :=
  match status (connection s) with
  | connected => js "text-green-500"
  | connecting | waiting => js "text-yellow-500"
  | disconnected => js "text-red-500"
  end.

Definition getStatusText (s : State) : JSString :=
  match status (connection s) with
  | connected => js "Connected"
  | connecting => js "Connecting..."
  | waiting => js "Finding partner..."
  | disconnected => js "Disconnected"
  end.

(** The two icons of the header. *)
Inductive Icon := Wifi | WifiOff.

Definition getStatusIcon (s : State) : Icon :=
  if Status_eqb (status (connection s)) connected then Wifi else WifiOff.

(** [String.prototype.startsWith] and [String.prototype.includes], on code
    units. *)
Fixpoint startsWith (s p : JSString) : bool :=
  match p, s with
  | [], _ => true
  | _ :: _, [] => false
  | c :: p', d :: s' => N.eqb c d && startsWith s' p'
  end.

Fixpoint includes (s p : JSString) : bool :=
  startsWith s p ||
  match s with
  | [] => false
  | _ :: s' => includes s' p
  end.

(** Class of the row of a message: [flex justify-end] or
    [flex justify-start]. *)
Definition rowClass (m : Message) : JSString :=
  js "flex " ++ match sender m with
                | user => js "justify-end"
                | partner => js "justify-start"
                end.

(** The state-dependent part of the class of a message bubble. *)
Definition bubbleClass (m : Message) : JSString :=
  match sender m with
  | user => js "bg-indigo-600 text-white"
  | partner =>
      if includes (text m) (js "connected")
         || includes (text m) (js "disconnected")
         || includes (text m) (js "Looking for")
      then js "bg-gray-200 text-gray-700 text-center italic"
      else js "bg-white text-gray-800 shadow-sm border"
  end.

(** [disabled] attribute of the send button. *)
Definition sendDisabled (s : State) : bool :=
  negb (truthy (trim (currentMessage s))) || negb (is_connected s).

(** [disabled] attribute of the text input. *)
Definition inputDisabled (s : State) : bool := negb (is_connected s).

Definition placeholder (s : State) : JSString :=
  if is_connected s then js "Type your message..."
  else js "Connect to start chatting".

(** ** Classes of events *)

(** Events whose handler replaces the message list instead of extending it. *)
Definition resets_messages (e : Event) : bool :=
  match e with
  | Recv disconnect _ _ | Recv waiting_for_partner _ _
  | Recv (partner_found _ _) _ _ | ClickDisconnect => true
  | _ => false
  end.

Definition is_message_received (e : Event) : bool :=
  match e with Recv (message_received _) _ _ => true | _ => false end.

(** While connected, the list starts with the announcement of the pairing. *)
Definition announcement_inv (s : State) : Prop :=
  status (connection s) = connected ->
  (exists pid, partnerId (connection s) = Some pid) /\
  exists msg ts rest,
    messages s = {| id := js "system_1"; text := msg;
                    sender := user; timestamp := ts |} :: rest.

(** ** Proof automation *)

Ltac unfold_actions :=
  unfold handle, on, mount, onKeyDown, handleConnect, handleSendMessage,
    handleNext, handleDisconnect, handleInputChange, clearTypingTimeout,
    run_callback, is_connected, seq, skip, emit, setMessages, setCurrentMessage,
    setConnection, setOnlineUsers, setIsTyping, setSocketRef, clearTimeout,
    setTypingTimeout in *.

Ltac destruct_state s :=
  let st := fresh "st" in
  let pid := fresh "pid" in
  let sr := fresh "sr" in
  destruct s as [? ? [st pid] ? ? sr ? ? ? ?]; destruct st, sr as [[]|].

Ltac split_ifs :=
  repeat match goal with
         | |- context [if ?b then _ else _] => destruct b eqn:?
         | |- context [match ?o with Some _ => _ | None => _ end] => destruct o eqn:?
         end.

(** Case analysis over the event and the status, for frame properties;
    [elapse_eq] is the equation that describes the state after [elapse]. *)
Ltac by_cases elapse_eq e s :=
  destruct e as [|[] ? ?| |? ?|? ?| |? ? ?|?|?];
  unfold emitted; try (cbn [handle]; rewrite ?elapse_eq);
  destruct_state s; unfold_actions; cbn; split_ifs; cbn;
  try (exfalso;
       match goal with
       | H : _ = false |- _ => rewrite ?orb_true_r in H; discriminate H
       | H : _ = true |- _ => rewrite ?andb_false_r in H; discriminate H
       end).

(** * Properties *)

(** ** Generic facts about actions *)

Lemma seq_fst (a b : Action) st : fst (seq a b st) = fst (b (fst (a st))).
Proof. unfold seq. destruct (a st) as [s1 o1]; cbn. destruct (b s1); reflexivity. Qed.

Lemma seq_snd (a b : Action) st :
  snd (seq a b st) = snd (a st) ++ snd (b (fst (a st))).
Proof. unfold seq. destruct (a st) as [s1 o1]; cbn. destruct (b s1); reflexivity. Qed.

Lemma Status_eqb_eq a b : Status_eqb a b = true <-> a = b.
Proof. destruct a, b; cbn; split; congruence. Qed.

Lemma is_connected_true s : is_connected s = true <-> status (connection s) = connected.
Proof. apply Status_eqb_eq. Qed.

Lemma is_connected_false s : is_connected s = false <-> status (connection s) <> connected.
Proof.
  unfold is_connected. destruct (status (connection s)); cbn; split; congruence.
Qed.

(** ** Trimming *)

Lemma trimStart_nil s : trimStart s = [] <-> forallb isWhiteSpace s = true.
Proof.
  induction s as [|c s IH]; cbn.
  - tauto.
  - destruct (isWhiteSpace c); cbn; [exact IH | split; discriminate].
Qed.

Lemma trimStart_head s c r : trimStart s = c :: r -> isWhiteSpace c = false.
Proof.
  induction s as [|d s IH]; cbn; [discriminate|].
  destruct (isWhiteSpace d) eqn:E; [exact IH|].
  intros [= <- _]. exact E.
Qed.

Lemma forallb_rev {A} (p : A -> bool) l : forallb p (rev l) = forallb p l.
Proof.
  induction l as [|a l IH]; cbn; [reflexivity|].
  rewrite forallb_app, IH. cbn. rewrite andb_true_r. apply andb_comm.
Qed.

Example trim_inner_blank : trim (js "  a b  ") = js "a b".
Proof. reflexivity. Qed.

Example trim_no_break_space : trim [160%N; 9%N; 8195%N; 10%N] = [].
Proof. reflexivity. Qed.

Example toString_now : toString 1700000000000 = js "1700000000000".
Proof. reflexivity. Qed.

(** The trimmed text is empty exactly when the text is made of white space
    only (the empty text included). *)
Lemma trim_nil s : trim s = [] <-> forallb isWhiteSpace s = true.
Proof.
  unfold trim, trimEnd. split.
  - intros H. apply (f_equal (@rev _)) in H. rewrite rev_involutive in H. cbn in H.
    apply trimStart_nil in H. rewrite forallb_rev in H.
    destruct (trimStart s) as [|c r] eqn:E.
    + now apply trimStart_nil.
    + apply trimStart_head in E. cbn in H. rewrite E in H. discriminate.
  - intros H. apply trimStart_nil in H. rewrite H. reflexivity.
Qed.

Lemma truthy_trim_false s : truthy (trim s) = false <-> forallb isWhiteSpace s = true.
Proof.
  rewrite <- trim_nil. destruct (trim s); cbn; split; congruence.
Qed.

(** ** Timeout callbacks *)

(** Timeout callbacks emit nothing but [typing_stop] and leave the state
    alone. *)
Lemma run_all_callbacks (l : list Timer) st :
  fst (run_all (map (fun t => run_callback (callback t)) l) st) = st /\
  forall ev, In ev (snd (run_all (map (fun t => run_callback (callback t)) l) st)) ->
             ev = typing_stop.
Proof.
  induction l as [|t l [IH1 IH2]]; cbn.
  - split; [reflexivity | intros ev []].
  - rewrite seq_fst, seq_snd.
    assert (E : fst (run_callback (callback t) st) = st).
    { destruct (callback t); unfold_actions; destruct (socketRef st); reflexivity. }
    rewrite E. split; [exact IH1|].
    intros ev H. apply in_app_or in H as [H|H]; [|now apply IH2].
    destruct (callback t); unfold_actions; destruct (socketRef st); cbn in H;
      intuition congruence.
Qed.

Lemma elapse_fst d st : fst (elapse d st) = fst (advance d st).
Proof.
  unfold elapse. rewrite seq_fst. apply run_all_callbacks.
Qed.

Lemma elapse_snd d st ev : In ev (snd (elapse d st)) -> ev = typing_stop.
Proof.
  unfold elapse. rewrite seq_snd. cbn. apply run_all_callbacks.
Qed.

Lemma connection_elapse d s : connection (fst (elapse d s)) = connection s.
Proof. rewrite elapse_fst. reflexivity. Qed.

Lemma partner_inv_initial : partner_inv initial.
Proof. intros p H. discriminate H. Qed.

Lemma partner_inv_handle e s : partner_inv s -> partner_inv (fst (handle e s)).
Proof.
  unfold partner_inv. intros H p.
  destruct e as [|ev t1 t2| |t1 t2|t1 t2| |key t1 t2|value|d];
    try (cbn [handle]; rewrite connection_elapse; apply H);
    [ | destruct ev | .. ];
    unfold_actions; split_ifs; cbn; try discriminate; try apply H; auto.
Qed.

(** After any transition, a status other than [connected] comes with no
    partner: either the connection state was not touched, or it was replaced
    by a literal without [partnerId]. *)
Lemma handle_drops_partner e s :
  partner_inv s ->
  status (connection (fst (handle e s))) <> connected ->
  partnerId (connection (fst (handle e s))) = None.
Proof.
  intros H Hs. apply partner_inv_handle with (e := e) in H.
  destruct (partnerId (connection (fst (handle e s)))) as [p|] eqn:E; [|reflexivity].
  apply H in E. contradiction.
Qed.

Lemma socket_inv_step s e s' : socket_inv s -> step s e s' -> socket_inv s'.
Proof.
  unfold socket_inv. intros H [En ->].
  destruct e as [|ev t1 t2| |t1 t2|t1 t2| |key t1 t2|value|d];
    try (cbn [handle]; rewrite connection_elapse, elapse_fst; apply H);
    [ | destruct ev | .. ];
    revert En H; unfold enabled; destruct_state s; unfold_actions; cbn;
      split_ifs; cbn; intros; auto; congruence.
Qed.

Lemma length_inv_handle s e :
  length_inv s -> enabled e s = true -> length_inv (fst (handle e s)).
Proof.
  unfold length_inv. intros H En.
  destruct e as [|ev t1 t2| |t1 t2|t1 t2| |key t1 t2|value|d];
    try (cbn [handle]; rewrite elapse_fst; apply H);
    [ | destruct ev | .. ];
    revert En; unfold enabled; unfold_actions; split_ifs; cbn in *;
      intros; try apply H; try (apply Nat.le_0_l).
  all: apply andb_prop in En as [_ En]; now apply Nat.leb_le in En.
Qed.

(** *** Timers *)

(** Only input changes and the passage of time touch the timeouts. *)
Lemma handle_timer_frame e s :
  is_change e = false -> is_elapse e = false ->
  timer_view (fst (handle e s)) = timer_view s.
Proof.
  destruct e as [|ev t1 t2| |t1 t2|t1 t2| |key t1 t2|value|d]; cbn;
    try discriminate; intros _ _; [ | destruct ev | .. ];
    unfold_actions; split_ifs; reflexivity.
Qed.

Lemma change_not_connected value s :
  is_connected s = false -> timer_view (fst (handleInputChange value s)) = timer_view s.
Proof.
  intros H. unfold handleInputChange. rewrite H. reflexivity.
Qed.

Lemma timer_inv_view s s' : timer_view s = timer_view s' -> timer_inv s -> timer_inv s'.
Proof.
  unfold timer_view, timer_inv. intros [= E1 E2 E3 E4].
  rewrite E1, E2, E3, E4. tauto.
Qed.

(** What an input change does to the timeouts when connected. *)
Lemma change_connected value s :
  is_connected s = true -> socketRef s <> None ->
  let s' := fst (handleInputChange value s) in
  typingTimeoutRef s' = Some (next_timer s) /\
  timers s' =
    match typingTimeoutRef s with
    | Some h => filter (fun t => negb (Pos.eqb (timer_id t) h)) (timers s)
    | None => timers s
    end ++ [{| timer_id := next_timer s; due := clock s + 1000;
               callback := emit_typing_stop |}] /\
  next_timer s' = Pos.succ (next_timer s) /\
  clock s' = clock s /\
  snd (handleInputChange value s) = [typing_start].
Proof.
  intros Hc Hs. unfold handleInputChange. rewrite Hc.
  destruct (socketRef s) as [k|] eqn:Es; [|congruence].
  unfold clearTypingTimeout, seq, emit, setCurrentMessage, setTypingTimeout,
    clearTimeout, skip; cbn.
  rewrite Es. destruct (typingTimeoutRef s); cbn; auto.
Qed.

Lemma timer_inv_initial : timer_inv initial.
Proof. split; [discriminate | now left]. Qed.

Lemma timer_inv_elapse d s : 0 <= d -> timer_inv s -> timer_inv (fst (elapse d s)).
Proof.
  intros Hd [Hf Ht]. rewrite elapse_fst. split; [exact Hf|]. cbn.
  destruct Ht as [->|(t & -> & Hr & Hdue)]; [now left|].
  cbn. destruct (clock s + d <? due t) eqn:E; [right | now left].
  exists t. apply Z.ltb_lt in E. repeat split; auto; lia.
Qed.

Lemma timer_inv_change value s :
  socket_inv s -> timer_inv s -> timer_inv (fst (handleInputChange value s)).
Proof.
  intros Hsock [Hf Ht]. destruct (is_connected s) eqn:Hc.
  - assert (Hs : socketRef s <> None).
    { intros E. apply Hsock in E. apply is_connected_true in Hc. congruence. }
    destruct (change_connected value s Hc Hs) as (E1 & E2 & E3 & E4 & _).
    split.
    + intros h. rewrite E1, E3. intros [= <-]. lia.
    + right.
      exists {| timer_id := next_timer s; due := clock s + 1000;
                callback := emit_typing_stop |}.
      rewrite E1, E2, E4. split; [|split; [reflexivity | cbn; lia]].
      destruct Ht as [->|(t & -> & Hr & _)].
      * destruct (typingTimeoutRef s); reflexivity.
      * rewrite Hr. cbn. rewrite Pos.eqb_refl. reflexivity.
  - eapply timer_inv_view; [symmetry; apply change_not_connected, Hc | split; auto].
Qed.

Lemma timer_inv_step s e s' : socket_inv s -> timer_inv s -> step s e s' -> timer_inv s'.
Proof.
  intros Hsock H [En ->].
  destruct (is_change e) eqn:Ec; [|destruct (is_elapse e) eqn:Ee].
  - destruct e; try discriminate. now apply timer_inv_change.
  - destruct e; try discriminate. apply timer_inv_elapse; [|exact H].
    now apply Z.leb_le.
  - eapply timer_inv_view; [symmetry; now apply handle_timer_frame | exact H].
Qed.

Lemma reachable_invariant s : reachable s -> invariant s.
Proof.
  induction 1 as [|s e s' _ IH Hstep].
  - split; [intros _; reflexivity | apply partner_inv_initial
           | apply Nat.le_0_l | apply timer_inv_initial].
  - destruct IH as [I1 I2 I3 I4]. split.
    + eapply socket_inv_step; eauto.
    + destruct Hstep as [_ ->]. now apply partner_inv_handle.
    + destruct Hstep as [En ->]. now apply length_inv_handle.
    + eapply timer_inv_step; eauto.
Qed.

Lemma reachable_connected_socket s :
  reachable s -> status (connection s) = connected -> socketRef s <> None.
Proof.
  intros Hr Hc E. apply reachable_invariant in Hr. destruct Hr as [I1 _ _ _].
  apply I1 in E. congruence.
Qed.

(** Reachability along an allowed trace. *)
Lemma reachable_run tr : forall s,
  reachable s -> allowed tr s = true -> reachable (fst (run tr s)).
Proof.
  induction tr as [|e tr IH]; intros s Hr Ha; cbn in *.
  - exact Hr.
  - apply andb_prop in Ha as [En Ha]. rewrite seq_fst. apply IH; [|exact Ha].
    eapply reachable_step; [exact Hr | split; [exact En | reflexivity]].
Qed.

(** ** The concrete session is reachable *)

Lemma paired_reachable : reachable paired.
Proof. apply reachable_run; [apply reachable_initial | reflexivity]. Qed.

Lemma typed_reachable : reachable typed.
Proof.
  apply reachable_step with (s := paired) (e := Change (js "hi"));
    [apply paired_reachable | split; reflexivity].
Qed.

(** ** Partner found (C3) *)

(** C3: on [partner_found {partnerId, message}] the connection state becomes
    [connected] with exactly that [partnerId], and the message list is
    replaced by the single announcement message. *)
Theorem partner_found_connects (s : State) (pid msg : JSString) (t1 t2 : Z) :
  let s' := fst (on (partner_found pid msg) t1 t2 s) in
  connection s' = {| status := connected; partnerId := Some pid |} /\
  messages s' = [{| id := js "system_1"; text := msg;
                    sender := user; timestamp := t1 |}].
Proof. split; reflexivity. Qed.

(** ** Partner disconnected (C4) *)

(** C4: on [partner_disconnected], received while a partner is recorded, the
    status becomes [waiting] (not [disconnected]), no partner identifier is
    kept in the connection state, and the partner-typing indicator is off. *)
Theorem partner_disconnected_waits (s : State) (p msg : JSString) (t1 t2 : Z) :
  partnerId (connection s) = Some p ->
  let s' := fst (on (partner_disconnected msg) t1 t2 s) in
  status (connection s') = waiting /\
  status (connection s') <> disconnected /\
  partnerId (connection s') = None /\
  isTyping s' = false.
Proof. intros _. cbn. repeat split. discriminate. Qed.

Lemma partner_disconnected_waits_witness :
  partnerId (connection paired) = Some (js "p7") /\
  partnerId (connection
    (fst (on (partner_disconnected (js "Stranger left")) 30 31 paired))) = None.
Proof.
  split; [reflexivity|].
  apply (partner_disconnected_waits paired (js "p7")). reflexivity.
Defined.

(** ** Typing indicator (C9) *)

(** C9: [message_received], [partner_disconnected] and the transport-level
    [disconnect] each leave the partner-typing indicator off, whatever the
    state before. *)
Theorem typing_indicator_cleared (s : State) (t1 t2 : Z) :
  (forall m, isTyping (fst (on (message_received m) t1 t2 s)) = false) /\
  (forall msg, isTyping (fst (on (partner_disconnected msg) t1 t2 s)) = false) /\
  isTyping (fst (on disconnect t1 t2 s)) = false.
Proof. repeat split. Qed.

(** ** Next (C6) *)

(** C6: "Next" while connected emits exactly one [next_partner], moves to
    [waiting], appends the system notice and clears the typing indicator;
    while not connected it emits nothing and changes nothing. *)
Theorem handleNext_skips (s : State) (t1 t2 : Z) :
  reachable s ->
  (status (connection s) = connected ->
   let s' := fst (handleNext t1 t2 s) in
   snd (handleNext t1 t2 s) = [next_partner] /\
   connection s' = {| status := waiting; partnerId := None |} /\
   messages s' =
     messages s ++ [systemMessage (js "Looking for a new partner...") t1 t2] /\
   isTyping s' = false) /\
  (status (connection s) <> connected -> handleNext t1 t2 s = (s, [])).
Proof.
  intros Hr. split.
  - intros Hc. pose proof (reachable_connected_socket s Hr Hc) as Hs.
    apply is_connected_true in Hc. unfold handleNext. rewrite Hc.
    destruct (socketRef s) eqn:Es; [|congruence].
    unfold seq, emit. cbn. rewrite Es. cbn. repeat split.
  - intros Hc. apply is_connected_false in Hc. unfold handleNext. rewrite Hc.
    reflexivity.
Qed.

Lemma handleNext_skips_witness :
  snd (handleNext 30 31 paired) = [next_partner] /\
  handleNext 30 31 initial = (initial, []).
Proof.
  split.
  - apply (handleNext_skips paired 30 31 paired_reachable). reflexivity.
  - apply (handleNext_skips initial 30 31 reachable_initial). discriminate.
Defined.

(** ** Start Chatting (C10) *)

(** C10: [handleConnect] emits nothing but [find_partner], and only from
    status [disconnected], which it turns into [connecting]; from every other
    status it returns the state untouched and emits nothing; a second call
    right after the first never emits. *)
Theorem handleConnect_once (s : State) :
  (forall ev, In ev (snd (handleConnect s)) ->
     ev = find_partner /\
     status (connection s) = disconnected /\
     status (connection (fst (handleConnect s))) = connecting) /\
  (status (connection s) = disconnected -> socketRef s <> None ->
     handleConnect s =
       (fst (setConnection {| status := connecting; partnerId := None |} s),
        [find_partner])) /\
  (status (connection s) <> disconnected -> handleConnect s = (s, [])) /\
  snd (handleConnect (fst (handleConnect s))) = [].
Proof.
  destruct_state s; unfold handleConnect, seq, emit, setConnection, skip; cbn;
    repeat split; try congruence; try tauto;
    match goal with H : _ \/ False |- _ => destruct H as [<-|[]]; reflexivity end.
Qed.

Lemma handleConnect_once_witness :
  handleConnect paired = (paired, []) /\
  snd (handleConnect (fst (run [Mount] initial))) = [find_partner].
Proof.
  split.
  - apply (handleConnect_once paired). discriminate.
  - destruct (handleConnect_once (fst (run [Mount] initial))) as (_ & H & _).
    rewrite H; [reflexivity | reflexivity | discriminate].
Defined.

(** ** Events of a pairing are emitted only while connected (C2) *)

Lemma existsb_only_typing_stop (l : list ClientEvent) :
  (forall ev, In ev l -> ev = typing_stop) -> existsb pairing_event l = false.
Proof.
  induction l as [|a l IH]; intros H; cbn; [reflexivity|].
  rewrite (H a (or_introl eq_refl)). cbn. apply IH.
  intros ev Hev. apply H. now right.
Qed.

(** C2: in a state whose status is not [connected], the handlers for sending,
    for input changes and for "Next" emit nothing, and no transition at all
    emits [send_message], [typing_start] or [next_partner]. *)
Theorem pairing_events_need_connected (s : State) :
  status (connection s) <> connected ->
  (forall t1 t2, snd (handleSendMessage t1 t2 s) = []) /\
  (forall value, snd (handleInputChange value s) = []) /\
  (forall t1 t2, snd (handleNext t1 t2 s) = []) /\
  (forall e, existsb pairing_event (emitted e s) = false).
Proof.
  intros Hc. apply is_connected_false in Hc.
  assert (H1 : forall t1 t2, snd (handleSendMessage t1 t2 s) = []).
  { intros. unfold handleSendMessage. rewrite Hc.
    rewrite orb_true_r. reflexivity. }
  assert (H2 : forall value, snd (handleInputChange value s) = []).
  { intros. unfold handleInputChange. rewrite Hc. reflexivity. }
  assert (H3 : forall t1 t2, snd (handleNext t1 t2 s) = []).
  { intros. unfold handleNext. rewrite Hc. reflexivity. }
  repeat split; auto.
  intros e. unfold emitted.
  destruct e as [|ev t1 t2| |t1 t2|t1 t2| |key t1 t2|value|d]; cbn [handle].
  - reflexivity.
  - destruct ev; reflexivity.
  - unfold handleConnect, seq, emit, setConnection, skip.
    destruct (socketRef s); cbn; [|reflexivity].
    destruct (Status_eqb _ _); reflexivity.
  - now rewrite H1.
  - now rewrite H3.
  - unfold handleDisconnect, seq, emit, skip.
    destruct (socketRef s); reflexivity.
  - unfold onKeyDown. rewrite Hc, andb_false_r. reflexivity.
  - now rewrite H2.
  - apply existsb_only_typing_stop. apply elapse_snd.
Qed.

Lemma pairing_events_need_connected_witness :
  snd (handleInputChange (js "hi") initial) = [] /\
  existsb pairing_event (emitted (ClickStartChatting) (fst (run [Mount] initial)))
    = false.
Proof.
  split.
  - apply (pairing_events_need_connected initial). discriminate.
  - apply (pairing_events_need_connected (fst (run [Mount] initial))). discriminate.
Defined.

(** ** The partner identifier is recorded only while connected (C8) *)

(** Every transition either leaves the connection state alone or overwrites
    it with one of the four literals of the source. *)
Lemma handle_connection_cases e s :
  let c' := connection (fst (handle e s)) in
  c' = connection s \/
  (status c' <> connected /\ partnerId c' = None) \/
  (status c' = connected /\ exists p, partnerId c' = Some p).
Proof.
  destruct e as [|ev t1 t2| |t1 t2|t1 t2| |key t1 t2|value|d];
    try (cbn [handle]; rewrite connection_elapse; now left);
    [ | destruct ev | .. ];
    unfold_actions; split_ifs; cbn; auto;
    try (right; left; split; [discriminate | reflexivity]).
  right; right. eauto.
Qed.

(** C8: the connection state records a [partnerId] only when its status is
    [connected].  This holds initially and is preserved by every socket
    callback, user action and timeout; a transition that changes the
    connection state to [disconnected], [connecting] or [waiting] leaves no
    [partnerId] in it. *)
Theorem partner_only_when_connected :
  partner_inv initial /\
  (forall s e, partner_inv s -> partner_inv (fst (handle e s))) /\
  (forall s, reachable s -> partner_inv s) /\
  (forall s e,
     connection (fst (handle e s)) <> connection s ->
     status (connection (fst (handle e s))) <> connected ->
     partnerId (connection (fst (handle e s))) = None).
Proof.
  split; [apply partner_inv_initial|].
  split; [intros s e; apply partner_inv_handle|].
  split; [intros s Hr; now destruct (reachable_invariant s Hr)|].
  intros s e Hch Hst.
  destruct (handle_connection_cases e s) as [H|[[_ H]|[H _]]];
    [contradiction | exact H | contradiction].
Qed.

Lemma partner_only_when_connected_witness :
  partner_inv paired /\
  partner_inv (fst (handle (ClickNext 30 31) paired)) /\
  partnerId (connection (fst (handle (ClickNext 30 31) paired))) = None.
Proof.
  destruct partner_only_when_connected as (_ & Hpres & Hreach & Hdrop).
  split; [apply Hreach, paired_reachable|].
  split; [apply Hpres, Hreach, paired_reachable|].
  apply Hdrop; discriminate.
Defined.

(** ** Validation of outgoing messages (C1) *)

Lemma handleSendMessage_blank s t1 t2 :
  forallb isWhiteSpace (currentMessage s) = true ->
  handleSendMessage t1 t2 s = (s, []).
Proof.
  intros H. apply truthy_trim_false in H. unfold handleSendMessage.
  rewrite H. reflexivity.
Qed.

Lemma handleSendMessage_emits s t1 t2 txt :
  In (send_message txt) (snd (handleSendMessage t1 t2 s)) ->
  txt = currentMessage s /\ trim txt <> [].
Proof.
  unfold handleSendMessage.
  destruct (truthy (trim (currentMessage s))) eqn:E; cbn; [|intros []].
  destruct (is_connected s); cbn; [|intros []].
  destruct (socketRef s) eqn:Es; cbn; [|intros []].
  unfold seq, emit; cbn. try rewrite Es; cbn.
  intros [[= <-]|[H|[]]]; [|discriminate H].
  split; [reflexivity|]. intros T. rewrite T in E. discriminate.
Qed.

(** C1: whatever transition runs in a reachable state, a [send_message] it
    emits carries the current text, which is non-empty after trimming and at
    most 500 code units long; a send attempt (button or Enter key) on a text
    made of white space only emits nothing and leaves the whole state, the
    message list included, as it was. *)
Theorem send_requires_valid_text (s : State) :
  reachable s ->
  (forall e txt, In (send_message txt) (emitted e s) ->
     txt = currentMessage s /\ trim txt <> [] /\ (List.length txt <= 500)%nat) /\
  (forallb isWhiteSpace (currentMessage s) = true ->
     forall t1 t2 key,
       handleSendMessage t1 t2 s = (s, []) /\ onKeyDown key t1 t2 s = (s, [])).
Proof.
  intros Hr. destruct (reachable_invariant s Hr) as [_ _ Hlen _]. split.
  - intros e txt. unfold emitted.
    assert (Hsend : forall t1 t2,
      In (send_message txt) (snd (handleSendMessage t1 t2 s)) ->
      txt = currentMessage s /\ trim txt <> [] /\ (List.length txt <= 500)%nat).
    { intros t1 t2 H. apply handleSendMessage_emits in H as [-> H].
      repeat split; auto. }
    destruct e as [|ev t1 t2| |t1 t2|t1 t2| |key t1 t2|value|d]; cbn [handle].
    + intros [].
    + destruct ev; intros [].
    + unfold handleConnect, seq, emit, setConnection, skip.
      destruct (socketRef s); cbn; [|intros []].
      destruct (Status_eqb _ _); cbn; [|intros []]. intros [H|[]]; discriminate H.
    + apply Hsend.
    + unfold handleNext, seq, emit, skip.
      destruct (is_connected s); cbn; [|intros []].
      destruct (socketRef s); cbn; [|intros []]. intros [H|[]]; discriminate H.
    + unfold handleDisconnect, seq, emit, skip.
      destruct (socketRef s); cbn; [|intros []]. intros [H|[]]; discriminate H.
    + unfold onKeyDown. destruct (_ && _ && _); [apply Hsend | intros []].
    + unfold handleInputChange, seq, emit, skip, setCurrentMessage,
        clearTypingTimeout, setTypingTimeout, clearTimeout.
      destruct (is_connected s); cbn; [|intros []].
      destruct (socketRef s); cbn; [|intros []].
      destruct (typingTimeoutRef s); cbn; intros [H|[]]; discriminate H.
    + intros H. apply elapse_snd in H. discriminate H.
  - intros Hws t1 t2 key. split; [now apply handleSendMessage_blank|].
    unfold onKeyDown. apply truthy_trim_false in Hws. rewrite Hws.
    rewrite andb_false_r. reflexivity.
Qed.

Lemma blank_reachable : reachable blank.
Proof.
  apply reachable_step with (s := paired) (e := Change (js "  "));
    [apply paired_reachable | split; reflexivity].
Qed.

Example typed_send :
  snd (handleSendMessage 40 41 typed) = [send_message (js "hi"); typing_stop].
Proof. reflexivity. Qed.

(** [handleSendMessage] itself never looks at the length; the bound above
    rests on the input's [maxLength] alone. *)
Example handleSendMessage_ignores_length :
  snd (handleSendMessage 40 41 (fst (setCurrentMessage (repeat 97%N 501) paired)))
  = [send_message (repeat 97%N 501); typing_stop].
Proof. reflexivity. Qed.

Lemma send_requires_valid_text_witness :
  (forall txt, In (send_message txt) (emitted (ClickSend 40 41) typed) ->
     txt = js "hi" /\ trim txt <> [] /\ (List.length txt <= 500)%nat) /\
  handleSendMessage 40 41 blank = (blank, []).
Proof.
  split.
  - intros txt H.
    destruct (send_requires_valid_text typed typed_reachable) as [H1 _].
    exact (H1 _ _ H).
  - destruct (send_requires_valid_text blank blank_reachable) as [_ H2].
    apply (H2 eq_refl 40 41 (js "Enter")).
Defined.

(** ** Local echo and messages from the partner (C7) *)

Lemma handleSendMessage_sends s t1 t2 :
  status (connection s) = connected -> socketRef s <> None ->
  trim (currentMessage s) <> [] ->
  handleSendMessage t1 t2 s =
    (fst ((setMessages (fun prev =>
             prev ++ [{| id := toString t1; text := currentMessage s;
                         sender := user; timestamp := t2 |}]) ;;
           setCurrentMessage []) s),
     [send_message (currentMessage s); typing_stop]).
Proof.
  intros Hc Hs Ht. apply is_connected_true in Hc. unfold handleSendMessage.
  rewrite Hc. destruct (trim (currentMessage s)) eqn:E; [congruence|].
  destruct (socketRef s) eqn:Es; [|congruence]. cbn.
  unfold seq, emit; cbn. rewrite Es. reflexivity.
Qed.

(** C7: a message the user sends is appended to the local list tagged
    [user] by [handleSendMessage] itself, which appends nothing else; the
    [message_received] callback appends the payload as it is, and the relay
    delivers a sent message to the partner only, tagged [partner], so it is
    appended on the partner's side with that tag and never comes back to its
    sender. *)
Theorem local_echo_partner_tag (s : State) (t1 t2 : Z) (me other : ConnId) :
  reachable s ->
  status (connection s) = connected ->
  trim (currentMessage s) <> [] ->
  me <> other ->
  let txt := currentMessage s in
  let s' := fst (handleSendMessage t1 t2 s) in
  messages s' = messages s ++ [{| id := toString t1; text := txt;
                                  sender := user; timestamp := t2 |}] /\
  snd (handleSendMessage t1 t2 s) = [send_message txt; typing_stop] /\
  (forall r m u1 u2,
     messages (fst (on (message_received m) u1 u2 r)) = messages r ++ [m]) /\
  (forall fresh_id server_time dest ev,
     In (dest, ev) (relay_chat_message (Some other) txt fresh_id server_time) ->
     dest = other /\ dest <> me /\
     exists m, ev = message_received m /\ text m = txt /\ sender m = partner /\
       forall r u1 u2, messages (fst (on ev u1 u2 r)) = messages r ++ [m]).
Proof.
  intros Hr Hc Ht Hne txt s'.
  pose proof (reachable_connected_socket s Hr Hc) as Hs.
  subst s'. rewrite (handleSendMessage_sends s t1 t2 Hc Hs Ht).
  split; [reflexivity|]. split; [reflexivity|]. split; [reflexivity|].
  intros fresh_id server_time dest ev. unfold relay_chat_message.
  destruct (_ && _); [|intros []].
  intros [[= <- <-]|[]]. split; [reflexivity|]. split; [congruence|].
  eexists. repeat split.
Qed.

Lemma local_echo_partner_tag_witness :
  messages (fst (handleSendMessage 40 41 typed)) =
    messages typed ++ [{| id := toString 40; text := js "hi";
                          sender := user; timestamp := 41 |}] /\
  snd (handleSendMessage 40 41 typed) = [send_message (js "hi"); typing_stop].
Proof.
  destruct (local_echo_partner_tag typed 40 41 (js "p3") (js "p7"))
    as (H1 & H2 & _).
  - apply typed_reachable.
  - reflexivity.
  - discriminate.
  - discriminate.
  - split; [exact H1 | exact H2].
Defined.

(** ** The typing timeout (C5) *)

Lemma allowed_elapsed_nonneg tr : forall s, allowed tr s = true -> 0 <= elapsed tr.
Proof.
  induction tr as [|e tr IH]; intros s H; cbn in *; [lia|].
  apply andb_prop in H as [En H]. apply IH in H.
  destruct e; auto. cbn in En. apply Z.leb_le in En. lia.
Qed.

Lemma socketRef_handle e s :
  socketRef s <> None -> socketRef (fst (handle e s)) <> None.
Proof.
  destruct e as [|ev t1 t2| |t1 t2|t1 t2| |key t1 t2|value|d];
    try (cbn [handle]; rewrite elapse_fst; now cbn);
    [ | destruct ev | .. ];
    unfold_actions; split_ifs; cbn; congruence.
Qed.

Lemma socketRef_run tr : forall s,
  socketRef s <> None -> socketRef (fst (run tr s)) <> None.
Proof.
  induction tr as [|e tr IH]; intros s Hs; cbn [run]; [exact Hs|].
  rewrite seq_fst. apply IH, socketRef_handle, Hs.
Qed.

(** With a socket and a single pending timeout, time passing short of the
    due time changes nothing but the clock... *)
Lemma elapse_before d s t :
  timers s = [t] -> clock s + d < due t ->
  snd (elapse d s) = [] /\ timers (fst (elapse d s)) = [t].
Proof.
  intros Ht Hd. rewrite elapse_fst. unfold elapse, seq. cbn. rewrite Ht. cbn.
  assert (E1 : (due t <=? clock s + d) = false) by (apply Z.leb_gt; lia).
  assert (E2 : (clock s + d <? due t) = true) by (apply Z.ltb_lt; lia).
  rewrite E1, E2. split; reflexivity.
Qed.

(** ... and reaching the due time runs the callback, which emits
    [typing_stop], and empties the queue. *)
Lemma elapse_after d s t :
  socketRef s <> None -> timers s = [t] -> due t <= clock s + d ->
  snd (elapse d s) = [typing_stop] /\ timers (fst (elapse d s)) = [].
Proof.
  intros Hs Ht Hd. rewrite elapse_fst. unfold elapse, seq. cbn. rewrite Ht. cbn.
  assert (E1 : (due t <=? clock s + d) = true) by (apply Z.leb_le; lia).
  assert (E2 : (clock s + d <? due t) = false) by (apply Z.ltb_ge; lia).
  rewrite E1, E2. cbn. destruct (callback t). unfold run_callback, emit, skip. cbn.
  destruct (socketRef s); [split; reflexivity | congruence].
Qed.

Lemma timers_nil_run tr : forall s,
  timers s = [] -> existsb is_change tr = false -> timers (fst (run tr s)) = [].
Proof.
  induction tr as [|e tr IH]; intros s Ht Hn; cbn in *; [exact Ht|].
  apply orb_false_elim in Hn as [He Hn]. rewrite seq_fst. apply IH; [|exact Hn].
  destruct (is_elapse e) eqn:Ee.
  - destruct e; try discriminate. cbn [handle]. rewrite elapse_fst. cbn.
    rewrite Ht. reflexivity.
  - pose proof (handle_timer_frame e s He Ee) as F.
    unfold timer_view in F. congruence.
Qed.

(** The clock only moves with [elapse]. *)
Lemma clock_run tr : forall s, clock (fst (run tr s)) = clock s + elapsed tr.
Proof.
  induction tr as [|e tr IH]; intros s; cbn [run elapsed].
  - cbn. lia.
  - rewrite seq_fst, IH.
    destruct e as [|ev t1 t2| |t1 t2|t1 t2| |key t1 t2|value|d];
      try (cbn [handle]; rewrite elapse_fst; cbn; lia);
      [ | destruct ev | .. ];
      unfold_actions; split_ifs; cbn; lia.
Qed.

(** The fate of a pending timeout along a trace without input changes: as
    long as less time than its delay has passed it stays pending, untouched;
    once its due time is reached, the time step that reaches it emits
    [typing_stop] and the queue is empty from then on. *)
Lemma pending_timeout_run tr : forall s t,
  socketRef s <> None -> timers s = [t] -> clock s < due t ->
  allowed tr s = true -> existsb is_change tr = false ->
  let s' := fst (run tr s) in
  clock s' = clock s + elapsed tr /\
  (clock s + elapsed tr < due t ->
     timer_view s' = (typingTimeoutRef s, [t], next_timer s, clock s + elapsed tr)) /\
  (due t <= clock s + elapsed tr ->
     timers s' = [] /\
     exists tr1 d tr2,
       tr = tr1 ++ Elapse d :: tr2 /\
       clock (fst (run tr1 s)) < due t <= clock (fst (run tr1 s)) + d /\
       snd (elapse d (fst (run tr1 s))) = [typing_stop]).
Proof.
  induction tr as [|e tr IH]; intros s t Hs Ht Hc Ha Hn;
    cbn [run allowed existsb elapsed] in *.
  - rewrite Z.add_0_r. split; [reflexivity|]. split; [|lia].
    intros _. unfold timer_view. cbn. now rewrite Ht.
  - apply andb_prop in Ha as [En Ha]. apply orb_false_elim in Hn as [He Hn].
    rewrite seq_fst. pose proof (allowed_elapsed_nonneg _ _ Ha) as Hpos.
    destruct (is_elapse e) eqn:Ee.
    + destruct e as [| | | | | | | |d]; try discriminate.
      cbn in En. apply Z.leb_le in En. cbn [handle].
      destruct (Z.lt_ge_cases (clock s + d) (due t)) as [Hlt|Hge].
      * destruct (elapse_before d s t Ht Hlt) as [Ho Ht'].
        assert (Hs' : socketRef (fst (elapse d s)) <> None)
          by (rewrite elapse_fst; exact Hs).
        assert (Hck : clock (fst (elapse d s)) = clock s + d)
          by (rewrite elapse_fst; reflexivity).
        assert (Hv : typingTimeoutRef (fst (elapse d s)) = typingTimeoutRef s /\
                     next_timer (fst (elapse d s)) = next_timer s)
          by (rewrite elapse_fst; split; reflexivity).
        destruct Hv as [Hv1 Hv2].
        destruct (IH (fst (elapse d s)) t Hs' Ht' ltac:(lia) Ha Hn)
          as (I1 & I2 & I3).
        rewrite Hck, Hv1, Hv2 in *. rewrite Z.add_assoc.
        split; [exact I1|]. split; [exact I2|].
        intros Hdue. destruct (I3 Hdue) as (Hnil & tr1 & d' & tr2 & -> & Hb & Ho').
        split; [exact Hnil|].
        exists (Elapse d :: tr1), d', tr2. cbn. rewrite seq_fst.
        split; [reflexivity|]. split; assumption.
      * destruct (elapse_after d s t Hs Ht Hge) as [Ho Ht'].
        split.
        { rewrite clock_run, elapse_fst. cbn. lia. }
        split; [intros; lia|]. intros _.
        split; [now apply timers_nil_run|].
        exists [], d, tr. cbn. split; [reflexivity|]. split; [lia | exact Ho].
    + pose proof (handle_timer_frame e s He Ee) as F.
      unfold timer_view in F. injection F as F1 F2 F3 F4.
      assert (Hs' := socketRef_handle e s Hs).
      rewrite <- F2 in Ht. rewrite <- F4 in Hc.
      assert (El : elapsed (e :: tr) = elapsed tr) by (destruct e; try discriminate; reflexivity).
      cbn in El. rewrite El.
      destruct (IH (fst (handle e s)) t Hs' Ht Hc Ha Hn) as (I1 & I2 & I3).
      rewrite F1, F3, F4 in *.
      split; [exact I1|]. split; [exact I2|].
      intros Hdue. destruct (I3 Hdue) as (Hnil & tr1 & d' & tr2 & -> & Hb & Ho').
      split; [exact Hnil|].
      exists (e :: tr1), d', tr2. cbn. rewrite seq_fst.
      split; [reflexivity|]. split; assumption.
Qed.

(** C5: an input change while connected leaves exactly one timeout pending,
    due 1000 ms later, whose callback emits [typing_stop]; any timeout that
    was pending before is cancelled.  Along every later run of the page
    without input changes: while less than a second has passed the timeout
    is still pending, and an input change at that point cancels it and
    schedules a fresh one, due a second after that change; once a second has
    passed, the time step that reaches the due time has emitted
    [typing_stop] and nothing is pending any more. *)
Theorem typing_stop_debounced (s : State) (value : JSString) :
  reachable s ->
  status (connection s) = connected ->
  let s1 := fst (handleInputChange value s) in
  let t := {| timer_id := next_timer s; due := clock s + 1000;
              callback := emit_typing_stop |} in
  snd (handleInputChange value s) = [typing_start] /\
  timers s1 = [t] /\
  typingTimeoutRef s1 = Some (timer_id t) /\
  (forall t0, In t0 (timers s) -> timer_id t0 <> timer_id t) /\
  (forall tr, allowed tr s1 = true -> existsb is_change tr = false ->
     let s2 := fst (run tr s1) in
     (elapsed tr < 1000 ->
        timers s2 = [t] /\
        forall value', enabled (Change value') s2 = true ->
          let t' := {| timer_id := next_timer s2; due := clock s2 + 1000;
                       callback := emit_typing_stop |} in
          timers (fst (handleInputChange value' s2)) = [t'] /\
          timer_id t' <> timer_id t /\
          due t' = due t + elapsed tr) /\
     (1000 <= elapsed tr ->
        timers s2 = [] /\
        exists tr1 d tr2,
          tr = tr1 ++ Elapse d :: tr2 /\
          elapsed tr1 < 1000 <= elapsed tr1 + d /\
          snd (elapse d (fst (run tr1 s1))) = [typing_stop])).
Proof.
  intros Hr Hc s1 t.
  pose proof (reachable_connected_socket s Hr Hc) as Hs.
  destruct (reachable_invariant s Hr) as [_ _ _ [Hfresh Hpend]].
  apply is_connected_true in Hc.
  destruct (change_connected value s Hc Hs) as (E1 & E2 & E3 & E4 & E5).
  fold s1 in E1, E2, E3, E4.
  assert (Ht : timers s1 = [t]).
  { rewrite E2. destruct Hpend as [->|(t0 & -> & Href & _)].
    - destruct (typingTimeoutRef s); reflexivity.
    - rewrite Href. cbn. rewrite Pos.eqb_refl. reflexivity. }
  assert (Hs1 : socketRef s1 <> None) by (apply (socketRef_handle (Change value)), Hs).
  split; [exact E5|]. split; [exact Ht|]. split; [exact E1|]. split.
  { intros t0 Hin. cbn. destruct Hpend as [E|(t1 & E & Href & _)];
      rewrite E in Hin; [destruct Hin|].
    destruct Hin as [<-|[]]. apply Hfresh in Href. lia. }
  intros tr Ha Hn s2.
  assert (Hck : clock s1 < due t) by (rewrite E4; cbn; lia).
  destruct (pending_timeout_run tr s1 t Hs1 Ht Hck Ha Hn) as (P1 & P2 & P3).
  fold s2 in P1, P2, P3. rewrite E4 in P1, P2, P3. cbn [due t] in P2, P3.
  split.
  - intros Hlt. assert (V := P2 ltac:(lia)). unfold timer_view in V.
    injection V as V1 V2 V3 V4.
    split; [exact V2|]. intros value' En t'.
    cbn in En. apply andb_prop in En as [En _].
    assert (Hs2 : socketRef s2 <> None) by (apply socketRef_run, Hs1).
    destruct (change_connected value' s2 En Hs2) as (_ & C2 & _).
    rewrite C2, V1, V2, E1. cbn. rewrite Pos.eqb_refl. cbn.
    split; [reflexivity|]. split; [rewrite V3, E3; lia | rewrite V4; lia].
  - intros Hge. destruct (P3 ltac:(lia)) as (Hnil & tr1 & d & tr2 & Etr & Hb & Ho).
    split; [exact Hnil|]. exists tr1, d, tr2.
    rewrite clock_run, E4 in Hb. cbn [due t] in Hb.
    split; [exact Etr|]. split; [lia | exact Ho].
Qed.

(** The user types "hi", pauses 400 ms, types "hi!", and stops: the first
    timeout never fires, the second one fires a second after the last
    keystroke. *)
Example debounce_run :
  snd (run [Elapse 400; Change (js "hi!"); Elapse 700] typed) = [typing_start] /\
  snd (run [Elapse 400; Change (js "hi!"); Elapse 700; Elapse 300] typed)
    = [typing_start; typing_stop].
Proof. split; reflexivity. Qed.

(** The timeout outlives the pairing: it still fires after the partner
    left, and an input change in a state that is not connected (the input is
    disabled then) would leave it alone. *)
Example timeout_outlives_pairing :
  snd (run [Recv (partner_disconnected (js "bye")) 50 51; Elapse 1000] typed)
    = [typing_stop] /\
  timers (fst (run [Recv (partner_disconnected (js "bye")) 50 51] typed))
    = timers typed.
Proof. split; reflexivity. Qed.

Lemma typing_stop_debounced_witness :
  timers typed = [{| timer_id := 1; due := 1000; callback := emit_typing_stop |}] /\
  timers (fst (run [Elapse 400; Recv partner_typing_start 0 0] typed))
    = [{| timer_id := 1; due := 1000; callback := emit_typing_stop |}] /\
  timers (fst (run [Elapse 400; Recv partner_typing_start 0 0; Elapse 700] typed))
    = [].
Proof.
  destruct (typing_stop_debounced paired (js "hi") paired_reachable eq_refl)
    as (_ & H1 & _ & _ & H).
  split; [exact H1|]. split.
  - apply (H [Elapse 400; Recv partner_typing_start 0 0] eq_refl eq_refl).
    cbn. lia.
  - apply (H [Elapse 400; Recv partner_typing_start 0 0; Elapse 700]
             eq_refl eq_refl).
    discriminate.
Defined.

(** * Further properties of the component *)

(** ** Sending *)

Lemma JSString_eqb_eq a b : JSString_eqb a b = true <-> a = b.
Proof.
  unfold JSString_eqb. destruct (list_eq_dec N.eq_dec a b); split; congruence.
Qed.

(** X1: pressing Enter in the input does exactly what the send button does, in
    every state: the extra tests of [onKeyDown] repeat the guard of
    [handleSendMessage].  Any other key does nothing. *)
Theorem onKeyDown_enter_is_send (s : State) (t1 t2 : Z) :
  onKeyDown (js "Enter") t1 t2 s = handleSendMessage t1 t2 s /\
  (forall key, key <> js "Enter" -> onKeyDown key t1 t2 s = (s, [])).
Proof.
  split.
  - unfold onKeyDown.
    assert (E : JSString_eqb (js "Enter") (js "Enter") = true)
      by now apply JSString_eqb_eq.
    rewrite E. cbn [andb].
    destruct (truthy (trim (currentMessage s)) && is_connected s) eqn:G;
      [reflexivity|].
    unfold handleSendMessage.
    apply andb_false_iff in G as [G|G]; rewrite G; cbn;
      [reflexivity | rewrite orb_true_r; reflexivity].
  - intros key Hk. unfold onKeyDown.
    destruct (JSString_eqb key (js "Enter")) eqn:E; [|reflexivity].
    apply JSString_eqb_eq in E. contradiction.
Qed.

Lemma onKeyDown_enter_is_send_witness :
  onKeyDown (js "a") 40 41 typed = (typed, []) /\
  snd (onKeyDown (js "Enter") 40 41 typed) = [send_message (js "hi"); typing_stop].
Proof.
  destruct (onKeyDown_enter_is_send typed 40 41) as [H1 H2].
  split; [apply H2; discriminate | rewrite H1; reflexivity].
Defined.

(** X2: a send either does nothing or emits [send_message] with the current
    text followed by [typing_stop]; and a second send right after any send
    does nothing at all, since the first one emptied the input. *)
Theorem handleSendMessage_twice (s : State) (t1 t2 u1 u2 : Z) :
  (handleSendMessage t1 t2 s = (s, []) \/
   snd (handleSendMessage t1 t2 s) = [send_message (currentMessage s); typing_stop] /\
   currentMessage (fst (handleSendMessage t1 t2 s)) = []) /\
  handleSendMessage u1 u2 (fst (handleSendMessage t1 t2 s))
    = (fst (handleSendMessage t1 t2 s), []).
Proof.
  unfold handleSendMessage at 1 2 3 5 6.
  destruct (negb (truthy (trim (currentMessage s))) || negb (is_connected s)
            || negb (isSome (socketRef s))) eqn:G.
  - split; [left; reflexivity|]. cbn. unfold handleSendMessage. rewrite G.
    reflexivity.
  - apply orb_false_elim in G as [G G3]. apply orb_false_elim in G as [G1 G2].
    destruct (socketRef s) eqn:Es; [|discriminate].
    unfold seq, emit; cbn. rewrite Es. cbn. split; [right; split; reflexivity|].
    reflexivity.
Qed.

(** ** The timeout queue *)

Lemma timers_need_socket s : reachable s -> timers s <> [] -> socketRef s <> None.
Proof.
  induction 1 as [|s e s' Hr IH [En ->]]; [intros H; now contradiction H|].
  intros Ht. destruct (is_change e) eqn:Ec; [|destruct (is_elapse e) eqn:Ee].
  - destruct e as [| | | | | | |value|]; try discriminate. cbn [handle] in *.
    apply (socketRef_handle (Change value)).
    destruct (is_connected s) eqn:Hc.
    + apply reachable_connected_socket; [exact Hr | now apply is_connected_true].
    + apply IH. pose proof (change_not_connected value s Hc) as F.
      unfold timer_view in F. injection F as _ F _ _. congruence.
  - destruct e as [| | | | | | | |d]; try discriminate. cbn [handle] in *.
    rewrite elapse_fst in *. cbn in *. apply IH. intros E. rewrite E in Ht.
    now apply Ht.
  - apply socketRef_handle, IH.
    pose proof (handle_timer_frame e s Ec Ee) as F.
    unfold timer_view in F. injection F as _ F _ _. congruence.
Qed.

(** X3: in every reachable state at most one timeout is pending, it is due
    within the next second, and a time step emits at most one
    [typing_stop]. *)
Theorem one_pending_timeout (s : State) :
  reachable s ->
  (List.length (timers s) <= 1)%nat /\
  (forall t, In t (timers s) -> clock s < due t <= clock s + 1000) /\
  (forall d, snd (elapse d s) = [] \/ snd (elapse d s) = [typing_stop]).
Proof.
  intros Hr. destruct (reachable_invariant s Hr) as [_ _ _ [_ Hp]].
  destruct Hp as [E|(t & E & _ & Hd)].
  - rewrite E. split; [cbn; lia|]. split; [intros t []|].
    intros d. left. unfold elapse, seq. rewrite E. reflexivity.
  - rewrite E. split; [cbn; lia|]. split; [intros t0 [<-|[]]; exact Hd|].
    intros d. destruct (Z.lt_ge_cases (clock s + d) (due t)) as [Hlt|Hge].
    + left. now apply (elapse_before d s t).
    + right. apply (elapse_after d s t); auto.
      apply timers_need_socket; [exact Hr | rewrite E; discriminate].
Qed.

Lemma one_pending_timeout_witness :
  (List.length (timers typed) <= 1)%nat /\ snd (elapse 1000 typed) = [typing_stop].
Proof.
  destruct (one_pending_timeout typed typed_reachable) as (H1 & _ & H3).
  split; [exact H1|]. destruct (H3 1000) as [H|H]; [discriminate H | exact H].
Defined.

(** X4: nothing but an input change cancels a pending timeout: after a send, a
    click on "Next" or "Disconnect", or any event from the server, it is
    still pending and its [typing_stop] is emitted when it comes due, after
    whatever the event itself emitted. *)
Theorem timeout_survives (s : State) (e : Event) (t : Timer) (d : Z) :
  reachable s ->
  timers s = [t] ->
  is_change e = false -> is_elapse e = false ->
  due t <= clock s + d ->
  timers (fst (handle e s)) = [t] /\
  snd (run [e; Elapse d] s) = emitted e s ++ [typing_stop].
Proof.
  intros Hr Ht Ec Ee Hd.
  pose proof (handle_timer_frame e s Ec Ee) as F. unfold timer_view in F.
  injection F as _ F2 _ F4.
  assert (Hs : socketRef (fst (handle e s)) <> None).
  { apply socketRef_handle, timers_need_socket; [exact Hr|].
    rewrite Ht. discriminate. }
  rewrite Ht in F2. split; [exact F2|].
  cbn [run]. rewrite seq_snd, seq_snd. cbn [handle skip snd].
  rewrite app_nil_r. unfold emitted. f_equal.
  apply (elapse_after d _ t); auto. rewrite F4. exact Hd.
Qed.

Lemma timeout_survives_witness :
  snd (run [ClickDisconnect; Elapse 1000] typed) = [disconnect_chat; typing_stop].
Proof.
  apply (timeout_survives typed ClickDisconnect
           {| timer_id := 1; due := 1000; callback := emit_typing_stop |} 1000
           typed_reachable); reflexivity || (cbn; lia).
Defined.

(** ** What each part of the state depends on *)


(** X5: the text in the input is changed by two things only: an input change,
    which stores the new value, and a send that went through, which empties
    it.  It survives "Next", "Disconnect" and everything the server sends. *)
Theorem draft_survives (e : Event) (s : State) :
  currentMessage (fst (handle e s)) = currentMessage s \/
  (exists value, e = Change value /\ currentMessage (fst (handle e s)) = value) \/
  (currentMessage (fst (handle e s)) = [] /\
   emitted e s = [send_message (currentMessage s); typing_stop]).
Proof.
  by_cases elapse_fst e s; auto; try (right; left; eexists; split; reflexivity).
Qed.

(** X6: no handler removes or reorders messages one by one: a transition keeps
    the list, appends exactly one message to it, or is one of the four
    resets ([disconnect], [waiting_for_partner], [partner_found],
    "Disconnect"), which leave at most one message. *)
Theorem messages_only_grow (e : Event) (s : State) :
  messages (fst (handle e s)) = messages s \/
  (exists m, messages (fst (handle e s)) = messages s ++ [m]) \/
  (resets_messages e = true /\ (List.length (messages (fst (handle e s))) <= 1)%nat).
Proof.
  by_cases elapse_fst e s; auto; try (right; left; eexists; reflexivity);
    right; right; split; auto.
Qed.

Lemma new_messages_user e s m :
  is_message_received e = false ->
  In m (messages (fst (handle e s))) -> In m (messages s) \/ sender m = user.
Proof.
  intros He. revert He.
  by_cases elapse_fst e s; try discriminate; intros _ H; auto;
    try (apply in_app_or in H as [H|H]; [now left|]);
    try (destruct H as [<-|[]]; now right); try (destruct H).
Qed.

(** X7: every message the client puts into the list on its own, system notices
    included, is tagged [user]: along a run without [message_received] a
    list of [user] messages stays one. *)
Theorem own_messages_tagged_user (tr : list Event) (s : State) :
  existsb is_message_received tr = false ->
  Forall (fun m => sender m = user) (messages s) ->
  Forall (fun m => sender m = user) (messages (fst (run tr s))).
Proof.
  revert s. induction tr as [|e tr IH]; intros s Hn Hs; cbn [run].
  - exact Hs.
  - cbn in Hn. apply orb_false_elim in Hn as [He Hn]. rewrite seq_fst.
    apply IH; [exact Hn|]. apply Forall_forall. intros m Hm.
    apply (new_messages_user e s m He) in Hm as [Hm|Hm]; [|exact Hm].
    rewrite Forall_forall in Hs. now apply Hs.
Qed.

Lemma own_messages_tagged_user_witness :
  Forall (fun m => sender m = user)
    (messages (fst (run (session ++ [Change (js "hi"); ClickSend 40 41;
                                     ClickNext 50 51]) initial))).
Proof.
  apply own_messages_tagged_user; [reflexivity | constructor].
Defined.

(** ** Status transitions *)

(** X8: how each status can be entered: [connected] only by [partner_found];
    [connecting] only by "Start Chatting" from [disconnected] with the socket
    in place; [waiting] only by [waiting_for_partner],
    [partner_disconnected], or "Next" while connected; [disconnected] only by
    [connect], [disconnect] or "Disconnect". *)
Theorem status_entered_by (e : Event) (s : State) :
  status (connection (fst (handle e s))) <> status (connection s) ->
  match status (connection (fst (handle e s))) with
  | connected => exists pid msg t1 t2, e = Recv (partner_found pid msg) t1 t2
  | connecting =>
      e = ClickStartChatting /\ status (connection s) = disconnected /\
      socketRef s <> None
  | waiting =>
      (exists t1 t2, e = Recv waiting_for_partner t1 t2) \/
      (exists msg t1 t2, e = Recv (partner_disconnected msg) t1 t2) \/
      (exists t1 t2, e = ClickNext t1 t2 /\ status (connection s) = connected)
  | disconnected =>
      (exists t1 t2, e = Recv connect t1 t2) \/
      (exists t1 t2, e = Recv disconnect t1 t2) \/
      e = ClickDisconnect
  end.
Proof.
  by_cases elapse_fst e s; intros H; try (now contradiction H); eauto 8;
    try (repeat split; discriminate).
Qed.

Lemma status_entered_by_witness :
  exists pid msg t1 t2,
    Recv (partner_found (js "p9") greeting) 60 60 = Recv (partner_found pid msg) t1 t2.
Proof.
  apply (status_entered_by (Recv (partner_found (js "p9") greeting) 60 60)
           (fst (run [Mount] initial))).
  discriminate.
Defined.

(** ** While connected *)

(** X9: in every reachable state with status [connected], a partner identifier
    is recorded and the message list starts with the announcement that came
    with [partner_found]; every transition keeps this. *)
Theorem announcement_stays_first :
  (forall e s, announcement_inv s -> announcement_inv (fst (handle e s))) /\
  (forall s, reachable s -> announcement_inv s).
Proof.
  assert (P : forall e s, announcement_inv s -> announcement_inv (fst (handle e s))).
  { intros e s. unfold announcement_inv. intros H. revert H.
    by_cases elapse_fst e s; intros H Hc; try discriminate Hc;
      try (destruct (H eq_refl) as ((p0 & Hp) & msg & ts & rest & Hm);
           try rewrite Hm; try rewrite Hp; cbn;
           split; eauto);
      try (split; eauto). }
  split; [exact P|].
  induction 1 as [|s e s' _ IH [_ ->]]; [discriminate | now apply P].
Qed.

Lemma announcement_stays_first_witness :
  announcement_inv paired /\
  announcement_inv (fst (handle (ClickSend 40 41) typed)).
Proof.
  destruct announcement_stays_first as [Hpres Hreach].
  split; [apply Hreach, paired_reachable | apply Hpres, Hreach, typed_reachable].
Defined.

(** X10: in a reachable state every control that is rendered and enabled acts
    when used: the send button sends the current text, "Next" asks for a new
    partner, "Disconnect" leaves, typing announces itself, and "Start
    Chatting" looks for a partner once the page is mounted. *)
Theorem enabled_controls_act (s : State) :
  reachable s ->
  (forall t1 t2, enabled (ClickSend t1 t2) s = true ->
     emitted (ClickSend t1 t2) s = [send_message (currentMessage s); typing_stop]) /\
  (forall t1 t2, enabled (ClickNext t1 t2) s = true ->
     emitted (ClickNext t1 t2) s = [next_partner]) /\
  (enabled ClickDisconnect s = true -> emitted ClickDisconnect s = [disconnect_chat]) /\
  (forall value, enabled (Change value) s = true ->
     emitted (Change value) s = [typing_start]) /\
  (enabled ClickStartChatting s = true -> socketRef s <> None ->
     emitted ClickStartChatting s = [find_partner]).
Proof.
  intros Hr.
  assert (Hs : is_connected s = true -> socketRef s <> None).
  { intros Hc. apply reachable_connected_socket; [exact Hr|].
    now apply is_connected_true. }
  unfold emitted, enabled. cbn [handle]. repeat split.
  - intros t1 t2 En. apply andb_prop in En as [E1 E2]. specialize (Hs E2).
    rewrite handleSendMessage_sends; auto.
    + now apply is_connected_true.
    + intros E. rewrite E in E1. discriminate.
  - intros t1 t2 En. specialize (Hs En). unfold handleNext. rewrite En.
    destruct (socketRef s) eqn:Es; [|congruence].
    unfold seq, emit. cbn. rewrite Es. reflexivity.
  - intros En. specialize (Hs En). unfold handleDisconnect.
    destruct (socketRef s) eqn:Es; [|congruence].
    unfold seq, emit. cbn. rewrite Es. reflexivity.
  - intros value En. apply andb_prop in En as [En _].
    now apply change_connected; auto.
  - intros En Hsock. unfold handleConnect. rewrite En.
    destruct (socketRef s) eqn:Es; [|congruence].
    unfold seq, emit. cbn. rewrite Es. reflexivity.
Qed.

Lemma enabled_controls_act_witness :
  emitted (ClickSend 40 41) typed = [send_message (js "hi"); typing_stop] /\
  emitted (ClickNext 40 41) paired = [next_partner].
Proof.
  split.
  - apply (enabled_controls_act typed typed_reachable). reflexivity.
  - apply (enabled_controls_act paired paired_reachable). reflexivity.
Defined.

(** ** Indicators *)

(** X11: the partner-typing indicator is switched on by [partner_typing_start]
    and by nothing else, and the online counter changes with [online_count]
    only, to the count it carries. *)
Theorem indicator_sources (e : Event) (s : State) :
  (isTyping (fst (handle e s)) = true ->
   isTyping s = true \/ exists t1 t2, e = Recv partner_typing_start t1 t2) /\
  (onlineUsers (fst (handle e s)) <> onlineUsers s ->
   exists count t1 t2, e = Recv (online_count count) t1 t2 /\
                       onlineUsers (fst (handle e s)) = count).
Proof.
  split.
  - by_cases elapse_fst e s; intros H; auto; try discriminate H; eauto.
  - by_cases elapse_fst e s; intros H; try (now contradiction H); eauto.
Qed.

Lemma indicator_sources_witness :
  (isTyping paired = true \/
   exists t1 t2, Recv partner_typing_start 60 60 = Recv partner_typing_start t1 t2) /\
  exists count t1 t2,
    Recv (online_count 12) 60 60 = Recv (online_count count) t1 t2 /\
    onlineUsers (fst (handle (Recv (online_count 12) 60 60) paired)) = count.
Proof.
  split.
  - apply (indicator_sources (Recv partner_typing_start 60 60) paired). reflexivity.
  - apply (indicator_sources (Recv (online_count 12) 60 60) paired). discriminate.
Defined.



(** ** The header *)

(** X13: the three parts of the status display agree: the Wifi icon, the green
    colour and the text "Connected" appear together, exactly when the status
    is [connected]; the text tells the four statuses apart, while the colour
    is the same for [connecting] and [waiting] and for these two only. *)
Theorem header_agrees (s s' : State) :
  (getStatusIcon s = Wifi <-> status (connection s) = connected) /\
  (getStatusColor s = js "text-green-500" <-> status (connection s) = connected) /\
  (getStatusText s = js "Connected" <-> status (connection s) = connected) /\
  (getStatusText s = getStatusText s' <->
   status (connection s) = status (connection s')) /\
  (getStatusColor s = getStatusColor s' <->
   status (connection s) = status (connection s') \/
   (status (connection s) = connecting /\ status (connection s') = waiting) \/
   (status (connection s) = waiting /\ status (connection s') = connecting)).
Proof.
  unfold getStatusIcon, getStatusColor, getStatusText.
  destruct (status (connection s)), (status (connection s')); cbn;
    repeat split; intros; try discriminate; try reflexivity; auto;
    repeat match goal with
           | H : _ \/ _ |- _ => destruct H
           | H : _ /\ _ |- _ => destruct H
           end; discriminate.
Qed.

(** ** Message bubbles *)

Lemma startsWith_spec s p : startsWith s p = true <-> exists b, s = p ++ b.
Proof.
  revert s. induction p as [|c p IH]; intros s.
  - split; [intros _; now exists s | intros _; destruct s; reflexivity].
  - destruct s as [|d s]; cbn.
    + split; [discriminate | intros [b H]; discriminate H].
    + rewrite andb_true_iff, IH, N.eqb_eq. split.
      * intros [-> [b ->]]. eauto.
      * intros [b [= -> ->]]. eauto.
Qed.

(** [includes] finds contiguous occurrences. *)
Lemma includes_spec s p : includes s p = true <-> exists a b, s = a ++ p ++ b.
Proof.
  induction s as [|d s IH]; cbn [includes]; rewrite orb_true_iff, startsWith_spec.
  - split.
    + intros [[b H]|H]; [exists [], b; exact H | discriminate H].
    + intros (a & b & H). left. destruct a; [eauto|discriminate H].
  - rewrite IH. split.
    + intros [[b H]|(a & b & H)]; [exists [], b; exact H|].
      exists (d :: a), b. cbn. now rewrite H.
    + intros (a & b & H). destruct a as [|d' a]; [left; eauto|].
      right. injection H as _ H. eauto.
Qed.

Lemma includes_inner s u p v : includes s (u ++ p ++ v) = true -> includes s p = true.
Proof.
  rewrite !includes_spec. intros (a & b & ->).
  exists (a ++ u), (v ++ b). now rewrite <- !app_assoc.
Qed.

(** X14: messages tagged [user] are shown to the right in the indigo style,
    whatever their text; a message tagged [partner] is shown in the grey
    italic notice style exactly when its text includes "connected" or
    "Looking for" (the test for "disconnected" never decides, since such a
    text includes "connected"), and in the white style otherwise. *)
Theorem bubble_styles (m : Message) :
  (sender m = user ->
   bubbleClass m = js "bg-indigo-600 text-white" /\
   rowClass m = js "flex justify-end") /\
  (sender m = partner ->
   rowClass m = js "flex justify-start" /\
   bubbleClass m =
     if includes (text m) (js "connected") || includes (text m) (js "Looking for")
     then js "bg-gray-200 text-gray-700 text-center italic"
     else js "bg-white text-gray-800 shadow-sm border").
Proof.
  unfold bubbleClass, rowClass. split; intros ->; split; try reflexivity.
  destruct (includes (text m) (js "connected")) eqn:E1; [reflexivity|].
  destruct (includes (text m) (js "disconnected")) eqn:E2; [|reflexivity].
  apply (includes_inner (text m) (js "dis") (js "connected") []) in E2.
  congruence.
Qed.

Lemma bubble_styles_witness :
  bubbleClass {| id := js "m1"; text := js "I got disconnected before";
                 sender := partner; timestamp := 80 |}
  = js "bg-gray-200 text-gray-700 text-center italic" /\
  bubbleClass (systemMessage (js "Looking for a new partner...") 80 81)
  = js "bg-indigo-600 text-white".
Proof.
  split.
  - apply (bubble_styles {| id := js "m1"; text := js "I got disconnected before";
                            sender := partner; timestamp := 80 |}).
    reflexivity.
  - apply (bubble_styles (systemMessage (js "Looking for a new partner...") 80 81)).
    reflexivity.
Defined.

(** ** Who emits what *)

(** X15: the complete table of emissions: callbacks for server events and the
    mount effect never emit; time emits [typing_stop] only; each control
    emits its own event only, a send being followed by [typing_stop]. *)
Theorem emission_table (e : Event) (s : State) (ev : ClientEvent) :
  In ev (emitted e s) ->
  match e with
  | Mount | Recv _ _ _ => False
  | ClickStartChatting => ev = find_partner
  | ClickSend _ _ | KeyDown _ _ _ =>
      ev = send_message (currentMessage s) \/ ev = typing_stop
  | ClickNext _ _ => ev = next_partner
  | ClickDisconnect => ev = disconnect_chat
  | Change _ => ev = typing_start
  | Elapse _ => ev = typing_stop
  end.
Proof.
  destruct e as [|sev t1 t2| |t1 t2|t1 t2| |key t1 t2|value|d];
    try (intros H; now apply elapse_snd in H);
    [ | destruct sev | .. ];
    unfold emitted; destruct_state s; unfold_actions; cbn; split_ifs; cbn;
    intuition (subst; auto).
Qed.

Lemma emission_table_witness :
  In typing_stop (emitted (ClickSend 40 41) typed) /\
  (typing_stop = send_message (currentMessage typed) \/ typing_stop = typing_stop).
Proof.
  assert (H : In typing_stop (emitted (ClickSend 40 41) typed))
    by (right; left; reflexivity).
  split; [exact H|].
  apply (emission_table (ClickSend 40 41) typed typing_stop H).
Defined.

(** ** Disabled controls *)

(** X16: in a reachable state the [disabled] attributes track the guards of the
    handlers: the send button is enabled exactly when a click on it would
    send, the input is enabled exactly when typing would announce itself,
    and the placeholder invites to type exactly when the input is enabled. *)
Theorem disabled_tracks_guards (s : State) (t1 t2 : Z) (value : JSString) :
  reachable s ->
  (sendDisabled s = false <-> snd (handleSendMessage t1 t2 s) <> []) /\
  (inputDisabled s = false <-> snd (handleInputChange value s) <> []) /\
  (placeholder s = js "Type your message..." <-> inputDisabled s = false).
Proof.
  intros Hr.
  assert (Hs : is_connected s = true -> socketRef s <> None).
  { intros Hc. apply reachable_connected_socket; [exact Hr|].
    now apply is_connected_true. }
  unfold sendDisabled, inputDisabled, placeholder.
  destruct (is_connected s) eqn:Hc; cbn [negb].
  - specialize (Hs eq_refl). split; [|split].
    + rewrite orb_false_r. destruct (trim (currentMessage s)) eqn:Et; cbn.
      * unfold handleSendMessage. rewrite Et. cbn. split; [discriminate | tauto].
      * rewrite handleSendMessage_sends; auto.
        -- cbn. split; [discriminate | reflexivity].
        -- now apply is_connected_true.
        -- congruence.
    + destruct (change_connected value s Hc Hs) as (_ & _ & _ & _ & E).
      rewrite E. split; [discriminate | reflexivity].
    + tauto.
  - split; [|split].
    + rewrite orb_true_r. unfold handleSendMessage. rewrite Hc. cbn.
      rewrite orb_true_r. cbn. split; [discriminate | tauto].
    + unfold handleInputChange. rewrite Hc. cbn. split; [discriminate | tauto].
    + split; discriminate.
Qed.

Lemma disabled_tracks_guards_witness :
  sendDisabled typed = false /\ sendDisabled blank = true /\
  snd (handleSendMessage 40 41 typed) <> [].
Proof.
  destruct (disabled_tracks_guards typed 40 41 (js "x") typed_reachable)
    as ([H _] & _ & _).
  split; [reflexivity|]. split; [reflexivity|]. apply H. reflexivity.
Defined.
